(** * card-game: the React front end

    A shallow embedding of the two components that carry logic:

    - [App] (App.tsx): the static coordinate table [grid] and the grid
      container it renders, one keyed, positioned wrapper per coordinate
      around a [Cell] (components/Cell.tsx);
    - [NameChange] (components/NameChange.tsx): an input with a local draft,
      a derived enablement flag and a submit button that dispatches the draft
      to the Redux store.

    JavaScript numbers that hold integers are [Z]; strings are [string];
    a rendered tree is a value of [Node]; hook cells and the store are
    explicit state, and an event handler is the list of effects it requests. *)

From Stdlib Require Import ZArith String List Ascii Bool Lia.
From Stdlib Require Import Decimal DecimalFacts DecimalPos DecimalN DecimalZ.
From Stdlib Require Import DecimalString.
Import ListNotations.
Set Warnings "-register-all".
Local Open Scope Z_scope.
Local Open Scope string_scope.

(** ** JavaScript primitives *)

(** A number interpolated into a template literal, [`${n}`], for an
    integer-valued [n]: its decimal numeral, with a minus sign below zero.
    This is what JavaScript prints for safe integers (at most 2^53 - 1 in
    absolute value; beyond, a double rounds, and from 10^21 on it is printed
    in exponent notation). The coordinates of [grid] are far below. *)
Definition Number_toString (n : Z) : string :=
  NilZero.string_of_int (Z.to_int n).

(** [a !== b] on two strings: comparison by value. *)
Definition strict_neq (a b : string) : bool := negb (String.eqb a b).

(** ** Rendered trees *)

(** What a component returns: text, a host element with the props the two
    components set, or an array of children (keys are scoped to the array
    that holds them). *)
Inductive Node : Type :=
| Text (s : string)
| Element (tag : string) (key : option string) (className : option string)
          (style : list (string * string)) (children : list Node)
| Fragment (items : list Node).

Definition key_of (n : Node) : option string :=
  match n with
  | Element _ k _ _ _ => k
  | _ => None
  end.

Definition style_of (n : Node) : list (string * string) :=
  match n with
  | Element _ _ _ st _ => st
  | _ => []
  end.

Definition children_of (n : Node) : list Node :=
  match n with
  | Element _ _ _ _ cs => cs
  | Fragment cs => cs
  | Text _ => []
  end.

(** The host elements a node stands for once arrays of children are
    flattened, in document order. *)
Fixpoint flatten (n : Node) : list Node :=
  match n with
  | Fragment items => List.concat (List.map flatten items)
  | _ => [n]
  end.

(** The text a node shows: the text of its descendants, in order. *)
Fixpoint textContent (n : Node) : string :=
  match n with
  | Text s => s
  | Element _ _ _ _ cs => String.concat "" (List.map textContent cs)
  | Fragment cs => String.concat "" (List.map textContent cs)
  end.

(** ** components/Cell.tsx *)

Definition Cell (x y : Z) : Node :=
  Element "div" None (Some "cell") []
    [Text ("(" ++ Number_toString x ++ ", " ++ Number_toString y ++ ")")].

(** ** App.tsx *)

Definition Coordinate : Type := (Z * Z)%type.

Definition grid : list (list Coordinate) :=
  [ [(0, 2); (0, 3); (0, 4)];
    [(1, 0); (1, 1); (1, 2); (1, 3); (1, 4); (1, 5); (1, 6)];
    [(2, 0); (2, 1); (2, 2); (2, 3); (2, 4); (2, 5); (2, 6)];
    [(3, 0); (3, 1); (3, 2); (3, 3); (3, 4); (3, 5); (3, 6)];
    [(4, 0); (4, 1); (4, 2); (4, 3); (4, 4); (4, 5); (4, 6)];
    [(5, 2); (5, 3); (5, 4)] ].

(** [`${x}-${y}`] *)
Definition cell_key (x y : Z) : string :=
  Number_toString x ++ "-" ++ Number_toString y.

(** [`${x+1} / ${y+1} / ${x+1} / ${y+1}`]; the sums are exact, as the code's
    are while [x + 1] and [y + 1] are safe integers. *)
Definition cell_gridArea (x y : Z) : string :=
  Number_toString (x + 1) ++ " / " ++ Number_toString (y + 1) ++ " / "
  ++ Number_toString (x + 1) ++ " / " ++ Number_toString (y + 1).

(** The inner arrow function of [App]: the wrapper rendered for one
    coordinate. *)
Definition grid_item (xy : Coordinate) : Node :=
  let '(x, y) := xy in
  Element "div" (Some (cell_key x y)) None
    [("gridArea", cell_gridArea x y)]
    [Cell x y].

(** [grid.map(row => row.map(...))] over a coordinate table: an array of
    arrays of wrappers. *)
Definition layout (spec : list (list Coordinate)) : Node :=
  Fragment (List.map (fun row => Fragment (List.map grid_item row)) spec).

(** [`${100.0/7.0}`]: the quotient is a double, kept here as the text
    JavaScript prints for it. No property below depends on it. *)
Definition seventh_percent : string := "14.285714285714286".

(** The grid container of [App] (the second child of its root; the first
    holds [Greeting] and [NameChange]). *)
Definition App_grid : Node :=
  Element "div" None (Some "grid")
    [("gridTemplateColumns",
      "repeat(7, fit-content(" ++ seventh_percent ++ "%))")]
    [layout grid].

(** The wrappers the container shows, in document order. *)
Definition rendered_items (container : Node) : list Node :=
  List.concat (List.map flatten (children_of container)).

(** ** The Redux store *)

(** Modelled from the spec: the action creator [setUserName] of
    store/user/userSlice.ts, which is not among the sources. Its only use,
    [dispatch(setUserName(inputUserName))], gives it one string payload. *)
Inductive Action : Type :=
| setUserName (payload : string).

(** What [NameChange] needs of the store's state: the selector it passes to
    [useAppSelector] and the root reducer [dispatch] runs. The component is
    written against this interface. *)
Class Store (S : Type) : Type := {
  selectUserName : S -> string;
  reducer : S -> Action -> S
}.

(** A running store: its current state and, as a record of what happened, the
    actions dispatched so far, newest first. *)
Record ReduxStore (S : Type) : Type := {
  getState : S;
  dispatched : list Action
}.
Arguments getState {S} _.
Arguments dispatched {S} _.

(** [store.dispatch(action)]: the reducer runs at once. *)
Definition dispatch {S} `{Store S} (st : ReduxStore S) (a : Action) : ReduxStore S :=
  {| getState := reducer (getState st) a;
     dispatched := a :: dispatched st |}.

(** Modelled from the spec: the user slice (store/user/userSlice.ts and
    store/user/selectors.ts are not among the sources). The spec gives the
    shared state "a single committed string value", read by
    [selectUserName() -> string] and written by [setUserName(newValue)],
    "synchronous apply, observable by the next selectUserName() call". *)
Module UserSlice.

(** Modelled from the spec: the shared state, "a single committed string
    value". *)
Record RootState : Type := { userName : string }.

(** Modelled from the spec: [selectUserName() -> string], "read committed
    value; synchronous, no side effects". *)
Definition select (s : RootState) : string := userName s.

(** Modelled from the spec: the reducer behind [setUserName(newValue)], which
    replaces the committed value by [newValue]. *)
Definition reduce (s : RootState) (a : Action) : RootState :=
  match a with
  | setUserName newValue => {| userName := newValue |}
  end.

#[global] Instance store : Store RootState :=
  {| selectUserName := select; reducer := reduce |}.

End UserSlice.

(** ** React hooks *)

(** [useState(initial)]: the cell's value, or [initial] on the first render. *)
Definition useState {A} (initial : A) (cell : option A) : A :=
  match cell with
  | Some current => current
  | None => initial
  end.

(** The dependency list [[userName, inputUserName]], compared entry by entry
    as React does ([Object.is], by value on strings). *)
Definition Deps : Type := (string * string)%type.

Definition same_deps (a b : Deps) : bool :=
  String.eqb (fst a) (fst b) && String.eqb (snd a) (snd b).

(** [useMemo(compute, deps)]: the cached value when the dependencies are the
    ones it was computed for, a fresh one otherwise. Returns the value and the
    cell's new content. *)
Definition useMemo {A} (compute : unit -> A) (deps : Deps)
    (cell : option (Deps * A)) : A * (Deps * A) :=
  match cell with
  | Some (cached_deps, cached) =>
      if same_deps cached_deps deps then (cached, (cached_deps, cached))
      else (compute tt, (deps, compute tt))
  | None => (compute tt, (deps, compute tt))
  end.

(** ** components/NameChange.tsx *)

(** What an event handler asks for when it runs. *)
Inductive Effect : Type :=
| SetInputUserName (value : string)
| Dispatch (a : Action)
| Alert (message : string).

(** The hook cells of one mounted [NameChange]. *)
Record Hooks : Type := {
  inputUserName : string;
  canChangeName_memo : Deps * bool
}.

(** The props of the returned tree that matter: the paragraph's text, the
    input's value and change handler, the submit button's [disabled] flag and
    click handler, and the click handler of the "testing" button. *)
Record View : Type := {
  paragraph : string;
  input_value : string;
  input_onChange : string -> list Effect;
  submit_disabled : bool;
  submit_onClick : list Effect;
  testing_onClick : list Effect
}.

(** One render of the component: [state] is the store's state, [fiber] the
    hook cells of the previous render ([None] on mount). *)
Definition NameChange {S} `{Store S} (state : S) (fiber : option Hooks)
    : View * Hooks :=
  let userName := selectUserName state in
  let inputUserName := useState userName (option_map inputUserName fiber) in
  let '(canChangeName, memo) :=
    useMemo (fun _ => strict_neq userName inputUserName)
            (userName, inputUserName)
            (option_map canChangeName_memo fiber) in
  let handleInputChange := fun value : string => [SetInputUserName value] in
  let handleNameChange := [Dispatch (setUserName inputUserName)] in
  ({| paragraph := "Don't like the name " ++ userName ++ "? Change It!";
      input_value := inputUserName;
      input_onChange := handleInputChange;
      submit_disabled := negb canChangeName;
      submit_onClick := handleNameChange;
      testing_onClick := [Alert "hello world"] |},
   {| inputUserName := inputUserName;
      canChangeName_memo := memo |}).

(** ** The page at run time *)

(** The store and the hook cells left by the last render of the mounted
    component. *)
Record World (S : Type) : Type := {
  store : ReduxStore S;
  fiber : Hooks
}.
Arguments store {S} _.
Arguments fiber {S} _.

(** What the user can do to the mounted component. *)
Inductive Event : Type :=
| Change (value : string)
| ClickSubmit
| ClickTesting.

Section Runtime.
Context {S : Type} `{Store S}.

(** The committed name, as any component reads it. *)
Definition committed (w : World S) : string :=
  selectUserName (getState (store w)).

(** The draft in the input. *)
Definition draft (w : World S) : string := inputUserName (fiber w).

(** First render of a fresh instance. *)
Definition mount (st : ReduxStore S) : World S :=
  {| store := st; fiber := snd (NameChange (getState st) None) |}.

(** The tree on screen: the component's output for the current state. *)
Definition current_view (w : World S) : View :=
  fst (NameChange (getState (store w)) (Some (fiber w))).

Definition rerender (w : World S) : World S :=
  {| store := store w;
     fiber := snd (NameChange (getState (store w)) (Some (fiber w))) |}.

Definition apply_effect (w : World S) (eff : Effect) : World S :=
  match eff with
  | SetInputUserName value =>
      {| store := store w;
         fiber := {| inputUserName := value;
                     canChangeName_memo := canChangeName_memo (fiber w) |} |}
  | Dispatch a => {| store := dispatch (store w) a; fiber := fiber w |}
  | Alert _ => w
  end.

(** Run a handler's effects, then render again. *)
Definition run (w : World S) (effects : list Effect) : World S :=
  rerender (fold_left apply_effect effects w).

(** The handler the browser calls for an event; a disabled button gets no
    click. *)
Definition handler_for (v : View) (e : Event) : list Effect :=
  match e with
  | Change value => input_onChange v value
  | ClickSubmit => if submit_disabled v then [] else submit_onClick v
  | ClickTesting => testing_onClick v
  end.

Definition step (w : World S) (e : Event) : World S :=
  run w (handler_for (current_view w) e).

(** [handleNameChange] called directly, whatever the button's state. *)
Definition call_handleNameChange (w : World S) : World S :=
  run w (submit_onClick (current_view w)).

(** The flag the button shows. *)
Definition canCommit (w : World S) : bool :=
  negb (submit_disabled (current_view w)).

(** The worlds the page can be in: a fresh instance mounted on some store,
    and whatever events lead to from there. *)
Inductive reachable : World S -> Prop :=
| reachable_mount : forall st, reachable (mount st)
| reachable_step : forall w e, reachable w -> reachable (step w e).

(** A memo cell holds what [canChangeName]'s function gives on the
    dependencies stored with it. *)
Definition memo_valid (cell : Deps * bool) : Prop :=
  snd cell = strict_neq (fst (fst cell)) (snd (fst cell)).

(** The invariant of the page: after every render the memo cell holds the
    flag for the names now on screen. *)
Definition memo_current (w : World S) : Prop :=
  canChangeName_memo (fiber w)
  = ((committed w, draft w), strict_neq (committed w) (draft w)).

End Runtime.

(** ** Reading a layout back

    What the style strings written by [App] mean to the layout engine, and the
    quantities the specification names. These follow the specification and
    CSS, not the source; the theorems compare them with what [App] renders. *)

Module Css.

(** The pieces of [s] between occurrences of [sep]. *)
Fixpoint split_on (sep : ascii) (s : string) : list string :=
  match s with
  | EmptyString => [EmptyString]
  | String ch rest =>
      if Ascii.eqb ch sep then EmptyString :: split_on sep rest
      else match split_on sep rest with
           | piece :: pieces => String ch piece :: pieces
           | [] => [String ch EmptyString]
           end
  end.

(** A decimal integer. *)
Definition read_int (s : string) : option Z :=
  option_map Z.of_int (NilZero.int_of_string s).

(** [s] without the prefix [p], when it starts with it. *)
Fixpoint strip_prefix (p s : string) : option string :=
  match p, s with
  | EmptyString, _ => Some s
  | String a p', String b s' =>
      if Ascii.eqb a b then strip_prefix p' s' else None
  | String _ _, EmptyString => None
  end.

Fixpoint declaration (name : string) (style : list (string * string))
    : option string :=
  match style with
  | [] => None
  | (n, v) :: rest => if String.eqb n name then Some v else declaration name rest
  end.

(** [grid-area: row-start / column-start / row-end / column-end], the four
    grid lines of an item. *)
Definition grid_area (value : string) : option (Z * Z * Z * Z) :=
  match split_on " " value with
  | [rs; s1; cs; s2; re; s3; ce] =>
      if String.eqb s1 "/" && String.eqb s2 "/" && String.eqb s3 "/" then
        match read_int rs, read_int cs, read_int re, read_int ce with
        | Some a, Some b, Some c, Some d => Some (a, b, c, d)
        | _, _, _, _ => None
        end
      else None
  | _ => None
  end.

(** [grid-template-columns: repeat(n, track)]: the number of tracks. *)
Definition repeat_count (value : string) : option Z :=
  match strip_prefix "repeat(" value with
  | Some rest =>
      match split_on "," rest with
      | n :: _ :: _ => read_int n
      | _ => None
      end
  | None => None
  end.

End Css.

(** The grid lines at which a rendered wrapper is placed. *)
Definition placement (item : Node) : option (Z * Z * Z * Z) :=
  match Css.declaration "gridArea" (style_of item) with
  | Some value => Css.grid_area value
  | None => None
  end.

(** The number of column tracks of a grid container. *)
Definition track_count (container : Node) : option Z :=
  match Css.declaration "gridTemplateColumns" (style_of container) with
  | Some value => Css.repeat_count value
  | None => None
  end.

(** The specification's column count: one more than the largest column index
    among the coordinates. *)
Definition columnCount (spec : list (list Coordinate)) : Z :=
  1 + fold_right Z.max 0 (List.map snd (List.concat spec)).

(** The integers [lo], ..., [hi]. *)
Definition range (lo hi : Z) : list Z :=
  List.map (fun k => lo + Z.of_nat k) (seq 0 (Z.to_nat (hi + 1 - lo))).

Definition row_cells (r lo hi : Z) : list Coordinate :=
  List.map (fun c => (r, c)) (range lo hi).

(** The production coordinate set as the specification lists it:
    (0,2),(0,3),(0,4), (1,0)..(1,6), (2,0)..(2,6), (3,0)..(3,6), (4,0)..(4,6),
    (5,2),(5,3),(5,4). *)
Definition production_set : list Coordinate :=
  (row_cells 0 2 4 ++ row_cells 1 0 6 ++ row_cells 2 0 6 ++ row_cells 3 0 6
   ++ row_cells 4 0 6 ++ row_cells 5 2 4)%list.

(** The labels of the production set, written out in the set's order. *)
Definition production_labels : list string :=
  [ "(0, 2)"; "(0, 3)"; "(0, 4)";
    "(1, 0)"; "(1, 1)"; "(1, 2)"; "(1, 3)"; "(1, 4)"; "(1, 5)"; "(1, 6)";
    "(2, 0)"; "(2, 1)"; "(2, 2)"; "(2, 3)"; "(2, 4)"; "(2, 5)"; "(2, 6)";
    "(3, 0)"; "(3, 1)"; "(3, 2)"; "(3, 3)"; "(3, 4)"; "(3, 5)"; "(3, 6)";
    "(4, 0)"; "(4, 1)"; "(4, 2)"; "(4, 3)"; "(4, 4)"; "(4, 5)"; "(4, 6)";
    "(5, 2)"; "(5, 3)"; "(5, 4)" ].

(** The keys [`${row}-${col}`] of the production set, written out. *)
Definition production_keys : list string :=
  [ "0-2"; "0-3"; "0-4";
    "1-0"; "1-1"; "1-2"; "1-3"; "1-4"; "1-5"; "1-6";
    "2-0"; "2-1"; "2-2"; "2-3"; "2-4"; "2-5"; "2-6";
    "3-0"; "3-1"; "3-2"; "3-3"; "3-4"; "3-5"; "3-6";
    "4-0"; "4-1"; "4-2"; "4-3"; "4-4"; "4-5"; "4-6";
    "5-2"; "5-3"; "5-4" ].

Definition Coordinate_eqb (a b : Coordinate) : bool :=
  Z.eqb (fst a) (fst b) && Z.eqb (snd a) (snd b).

(** Whether some element of the list occurs in it twice. *)
Fixpoint has_duplicate {A} (eqb : A -> A -> bool) (l : list A) : bool :=
  match l with
  | [] => false
  | a :: rest => existsb (eqb a) rest || has_duplicate eqb rest
  end.

(** Every character of [s] passes the test [p]. *)
Fixpoint string_forall (p : ascii -> bool) (s : string) : bool :=
  match s with
  | EmptyString => true
  | String ch rest => p ch && string_forall p rest
  end.

Definition is_digit (ch : ascii) : bool :=
  let n := nat_of_ascii ch in (48 <=? n)%nat && (n <=? 57)%nat.

Definition is_not (sep ch : ascii) : bool := negb (Ascii.eqb ch sep).

(** [s] has a zero in front of further characters. *)
Definition leading_zero (s : string) : bool :=
  match s with
  | String ch (String _ _) => Ascii.eqb ch "0"
  | _ => false
  end.

(** [s] is the decimal numeral of the number [z], which is not negative:
    digits only, no zero in front, and the value [z]. *)
Definition decimal_numeral (s : string) (z : Z) : bool :=
  string_forall is_digit s && negb (leading_zero s)
  && match Css.read_int s with
     | Some v => Z.eqb v z
     | None => false
     end.

(** The worlds of the specification's examples: a store whose committed name
    is "Alice", the editor mounted on it, and "Bob" typed into the input. *)
Definition alice_store : ReduxStore UserSlice.RootState :=
  {| getState := {| UserSlice.userName := "Alice" |}; dispatched := [] |}.

Definition alice_mounted : World UserSlice.RootState := mount alice_store.

Definition bob_typed : World UserSlice.RootState :=
  step alice_mounted (Change "Bob").

(** ** Safe integers

    A JavaScript number is a double: integers are exact, and [`${n}`] is the
    plain decimal numeral, only up to [Number.MAX_SAFE_INTEGER] in absolute
    value. [Number_toString] and the sum in [cell_gridArea] are the code's on
    that range, and properties of arbitrary coordinates are stated on it. *)

Definition MAX_SAFE_INTEGER : Z := 2 ^ 53 - 1.

(** [Number.isSafeInteger(n)], for an integer [n]. *)
Definition safe_integer (n : Z) : Prop :=
  - MAX_SAFE_INTEGER <= n <= MAX_SAFE_INTEGER.

Definition safe_coordinate (xy : Coordinate) : Prop :=
  safe_integer (fst xy) /\ safe_integer (snd xy).

(** A coordinate a grid can place: not negative, and with [x + 1] and
    [y + 1] safe integers too. *)
Definition placeable (xy : Coordinate) : Prop :=
  0 <= fst xy < MAX_SAFE_INTEGER /\ 0 <= snd xy < MAX_SAFE_INTEGER.

(** ** Reading keys and labels back

    Readers for the two texts [App] and [Cell] build from a coordinate: the
    key [`${x}-${y}`] and the label [`(${x}, ${y})`]. *)

(** The longest prefix of digits, and what follows it. *)
Fixpoint span_digits (s : string) : string * string :=
  match s with
  | EmptyString => (EmptyString, EmptyString)
  | String ch rest =>
      if is_digit ch then
        let (digits, tail) := span_digits rest in (String ch digits, tail)
      else (EmptyString, s)
  end.

(** An integer numeral at the front of [s] (a minus sign if there is one,
    then digits), and what follows it. *)
Definition read_numeral (s : string) : string * string :=
  match s with
  | EmptyString => (EmptyString, EmptyString)
  | String ch rest =>
      if Ascii.eqb ch "-" then
        let (digits, tail) := span_digits rest in (String ch digits, tail)
      else span_digits s
  end.

Definition read_pair (sx sy : string) : option Coordinate :=
  match Css.read_int sx, Css.read_int sy with
  | Some x, Some y => Some (x, y)
  | _, _ => None
  end.

(** A key: a numeral, a hyphen, a numeral. *)
Definition read_key (k : string) : option Coordinate :=
  let (sx, rest) := read_numeral k in
  match rest with
  | String ch sy => if Ascii.eqb ch "-" then read_pair sx sy else None
  | EmptyString => None
  end.

(** A label: "(", a numeral, ", ", a numeral, ")". *)
Definition read_label (s : string) : option Coordinate :=
  match Css.strip_prefix "(" s with
  | Some body =>
      let (sx, rest) := read_numeral body in
      match Css.strip_prefix ", " rest with
      | Some rest' =>
          let (sy, tail) := read_numeral rest' in
          if String.eqb tail ")" then read_pair sx sy else None
      | None => None
      end
  | None => None
  end.

(** ** Runs of events *)

Definition payload (a : Action) : string :=
  match a with
  | setUserName p => p
  end.

(** The texts typed during a run, in order. *)
Fixpoint typed_texts (events : list Event) : list string :=
  match events with
  | [] => []
  | Change value :: rest => value :: typed_texts rest
  | _ :: rest => typed_texts rest
  end.

(** How many clicks on the submit button a run holds. *)
Fixpoint submit_clicks (events : list Event) : nat :=
  match events with
  | [] => O
  | ClickSubmit :: rest => Datatypes.S (submit_clicks rest)
  | _ :: rest => submit_clicks rest
  end.

(** The store got a new content from elsewhere (another component
    dispatched): [useAppSelector] makes the mounted component render again,
    with its hook cells as they are. *)
Definition store_changed {S} `{Store S} (w : World S) (st : ReduxStore S)
    : World S :=
  rerender {| store := st; fiber := fiber w |}.

(** * Numerals and separators *)

Lemma string_forall_weaken (p q : ascii -> bool) s :
  (forall ch, p ch = true -> q ch = true) ->
  string_forall p s = true -> string_forall q s = true.
Proof.
  intros Hpq. induction s as [|ch s IH]; simpl; [reflexivity|].
  rewrite !andb_true_iff. intros [Hch Hs]. split; auto.
Qed.

Lemma uint_digits d : string_forall is_digit (NilEmpty.string_of_uint d) = true.
Proof. induction d; simpl; auto. Qed.

(** The numeral of a number that is not negative is made of digits. *)
Lemma Number_toString_digits z :
  0 <= z -> string_forall is_digit (Number_toString z) = true.
Proof.
  intros Hz. unfold Number_toString.
  destruct z as [|p|p]; [reflexivity| |lia].
  simpl. destruct (Pos.to_uint p) eqn:E; try apply uint_digits; reflexivity.
Qed.

Lemma digit_is_not sep :
  is_digit sep = false -> forall ch, is_digit ch = true -> is_not sep ch = true.
Proof.
  intros Hsep ch Hch. unfold is_not.
  destruct (Ascii.eqb ch sep) eqn:E; [|reflexivity].
  apply Ascii.eqb_eq in E. congruence.
Qed.

Lemma Number_toString_lacks sep z :
  is_digit sep = false -> 0 <= z ->
  string_forall (is_not sep) (Number_toString z) = true.
Proof.
  intros Hsep Hz.
  apply string_forall_weaken with (p := is_digit);
    [apply digit_is_not, Hsep | apply Number_toString_digits, Hz].
Qed.

(** Reading back the numeral of [z] gives [z]. *)
Lemma read_int_Number_toString z : Css.read_int (Number_toString z) = Some z.
Proof.
  unfold Css.read_int, Number_toString.
  rewrite NilZero.isi.
  - simpl. now rewrite DecimalZ.of_to.
  - destruct z; simpl; try discriminate.
    intros E. injection E as E. now apply DecimalPos.Unsigned.to_uint_nonnil in E.
  - destruct z; simpl; try discriminate.
    intros E. injection E as E. now apply DecimalPos.Unsigned.to_uint_nonnil in E.
Qed.

Lemma Number_toString_inj a b : Number_toString a = Number_toString b -> a = b.
Proof.
  intros E. apply (f_equal Css.read_int) in E.
  rewrite !read_int_Number_toString in E. now injection E.
Qed.

Lemma split_on_whole sep s :
  string_forall (is_not sep) s = true -> Css.split_on sep s = [s].
Proof.
  induction s as [|ch s IH]; simpl; [reflexivity|].
  rewrite andb_true_iff. unfold is_not at 1. intros [Hch Hs].
  apply negb_true_iff in Hch. rewrite Hch, (IH Hs). reflexivity.
Qed.

Lemma split_on_first sep a b :
  string_forall (is_not sep) a = true ->
  Css.split_on sep (a ++ String sep b) = a :: Css.split_on sep b.
Proof.
  induction a as [|ch a IH]; simpl.
  - intros _. now rewrite Ascii.eqb_refl.
  - rewrite andb_true_iff. unfold is_not at 1. intros [Hch Ha].
    apply negb_true_iff in Hch. rewrite Hch, (IH Ha). reflexivity.
Qed.

(** * The grid *)

(** The placement rule, for any coordinate that is not negative: the wrapper
    of (r, c) starts and ends on row line r+1 and column line c+1. *)
Lemma placement_rule r c :
  0 <= r -> 0 <= c ->
  placement (grid_item (r, c)) = Some (r + 1, c + 1, r + 1, c + 1).
Proof.
  intros Hr Hc.
  assert (Sr : string_forall (is_not " ") (Number_toString (r + 1)) = true)
    by (apply Number_toString_lacks; [reflexivity | lia]).
  assert (Sc : string_forall (is_not " ") (Number_toString (c + 1)) = true)
    by (apply Number_toString_lacks; [reflexivity | lia]).
  unfold placement, grid_item, cell_gridArea. cbn [style_of Css.declaration].
  rewrite String.eqb_refl. unfold Css.grid_area.
  change (" / " ++ ?s) with (String " " ("/" ++ String " " s)).
  rewrite (split_on_first _ _ _ Sr), (split_on_first " " "/" _ eq_refl).
  change (" / " ++ ?s) with (String " " ("/" ++ String " " s)).
  rewrite (split_on_first _ _ _ Sc), (split_on_first " " "/" _ eq_refl).
  change (" / " ++ ?s) with (String " " ("/" ++ String " " s)).
  rewrite (split_on_first _ _ _ Sr), (split_on_first " " "/" _ eq_refl).
  rewrite (split_on_whole _ _ Sc).
  cbn [String.eqb Ascii.eqb Bool.eqb andb].
  now rewrite !read_int_Number_toString.
Qed.

(** The keying function is one-to-one on coordinates that are not negative:
    the numerals hold no hyphen, so the key splits back into them. *)
Lemma cell_key_inj x y x' y' :
  0 <= x -> 0 <= x' -> 0 <= y -> 0 <= y' ->
  cell_key x y = cell_key x' y' -> (x, y) = (x', y').
Proof.
  intros Hx Hx' Hy Hy' E.
  apply (f_equal (Css.split_on "-")) in E. unfold cell_key in E.
  change ("-" ++ ?s) with (String "-" s) in E.
  rewrite !split_on_first, !split_on_whole in E
    by (apply Number_toString_lacks; [reflexivity | assumption]).
  injection E as Ex Ey.
  apply Number_toString_inj in Ex, Ey. congruence.
Qed.

Lemma flatten_layout spec :
  flatten (layout spec) = List.map grid_item (List.concat spec).
Proof.
  unfold layout. cbn [flatten]. rewrite map_map.
  induction spec as [|row rows IH]; [reflexivity|].
  cbn [List.map List.concat]. rewrite map_app, <- IH. f_equal.
  cbn [flatten]. clear IH.
  induction row as [|[x y] row IH]; [reflexivity|].
  cbn [List.map List.concat flatten grid_item]. now rewrite IH.
Qed.

(** The container of [App] shows one wrapper per coordinate of [grid], in the
    table's order. *)
Lemma App_grid_items :
  rendered_items App_grid = List.map grid_item (List.concat grid).
Proof.
  unfold rendered_items, App_grid. cbn [children_of List.map List.concat].
  now rewrite List.app_nil_r, flatten_layout.
Qed.

Lemma grid_nonnegative : Forall (fun xy => 0 <= fst xy /\ 0 <= snd xy) (List.concat grid).
Proof. repeat constructor; simpl; lia. Qed.

Lemma has_duplicate_false_NoDup {A} (eqb : A -> A -> bool) (l : list A) :
  (forall a b, a = b -> eqb a b = true) ->
  has_duplicate eqb l = false -> NoDup l.
Proof.
  intros Heqb. induction l as [|a l IH]; simpl; [constructor|].
  rewrite orb_false_iff. intros [Ha Hl]. constructor; [|auto].
  intros Hin. assert (existsb (eqb a) l = true) as E
    by (apply existsb_exists; exists a; auto).
  congruence.
Qed.

(** The numeral of a positive number starts with a digit other than zero. *)
Lemma to_uint_no_leading_zero p :
  leading_zero (NilEmpty.string_of_uint (Pos.to_uint p)) = false.
Proof.
  assert (Hn : unorm (Pos.to_uint p) = Pos.to_uint p).
  { change (Pos.to_uint p) with (N.to_uint (N.pos p)).
    rewrite <- DecimalN.Unsigned.to_of, DecimalN.Unsigned.of_to. reflexivity. }
  destruct (Pos.to_uint p) as [|u|u|u|u|u|u|u|u|u|u] eqn:E;
    try (simpl; destruct (NilEmpty.string_of_uint u); reflexivity);
    [reflexivity|].
  exfalso. rewrite unorm_D0 in Hn.
  assert (Hu : u = Nil \/ u <> Nil)
    by (destruct u; [now left | right; discriminate ..]).
  destruct Hu as [->|Hu].
  - now apply (DecimalPos.Unsigned.to_uint_nonzero p).
  - apply nb_digits_unorm in Hu. rewrite Hn in Hu. simpl in Hu. lia.
Qed.

Lemma Number_toString_numeral z :
  0 <= z -> decimal_numeral (Number_toString z) z = true.
Proof.
  intros Hz. unfold decimal_numeral.
  rewrite Number_toString_digits, read_int_Number_toString, Z.eqb_refl by assumption.
  destruct z as [|p|p]; [reflexivity| |lia].
  unfold Number_toString. cbn [Z.to_int NilZero.string_of_int].
  assert (E : NilZero.string_of_uint (Pos.to_uint p)
              = NilEmpty.string_of_uint (Pos.to_uint p)).
  { destruct (Pos.to_uint p) eqn:E; try reflexivity.
    now apply DecimalPos.Unsigned.to_uint_nonnil in E. }
  now rewrite E, to_uint_no_leading_zero.
Qed.

(** The label rule, for any coordinate that is not negative. *)
Lemma Cell_label r c :
  0 <= r -> 0 <= c ->
  exists sr sc,
    decimal_numeral sr r = true /\ decimal_numeral sc c = true /\
    Cell r c = Element "div" None (Some "cell") []
                 [Text ("(" ++ sr ++ ", " ++ sc ++ ")")].
Proof.
  intros Hr Hc. exists (Number_toString r), (Number_toString c).
  repeat split; auto using Number_toString_numeral.
Qed.

Lemma grid_coordinate_nonnegative r c :
  In (r, c) (List.concat grid) -> 0 <= r /\ 0 <= c.
Proof.
  intros Hin.
  exact (proj1 (Forall_forall _ _) grid_nonnegative (r, c) Hin).
Qed.

(** C4 (layout determinism). The coordinates of [grid] are the production
    set of the specification; the wrappers [App] renders are placed, one per
    coordinate (r, c) and in the set's order, on row line r+1 and column line
    c+1 (start and end); and the column count 1 + max(column index) is 7, the
    number of tracks the container's template asks for. *)
Theorem layout_determinism :
  List.concat grid = production_set
  /\ List.map placement (rendered_items App_grid)
     = List.map (fun rc => Some (fst rc + 1, snd rc + 1, fst rc + 1, snd rc + 1))
                production_set
  /\ columnCount grid = 7
  /\ track_count App_grid = Some 7.
Proof.
  assert (Hset : List.concat grid = production_set) by reflexivity.
  split; [exact Hset|]. split; [|split; reflexivity].
  rewrite App_grid_items, <- Hset, map_map.
  apply map_ext_in. intros [r c] Hin.
  destruct (grid_coordinate_nonnegative r c Hin) as [Hr Hc].
  now apply placement_rule.
Qed.

(** C5 (label exactness). For every coordinate (r, c) of the grid the cell
    is a [div] of class "cell" whose only child is the text "(r, c)": an
    opening parenthesis, the decimal numeral of r, a comma and one space, the
    decimal numeral of c, a closing parenthesis. The cell for (2, 5) shows
    the text (2, 5). What [App] renders inside the wrapper of each
    coordinate of the production set is that cell and nothing else, and the
    texts the wrappers show are, in order, the labels "(r, c)" written out;
    the wrapper of (2, 5), the sixteenth, shows (2, 5). *)
Theorem Cell_label_exact :
  (forall r c, In (r, c) (List.concat grid) ->
     exists sr sc,
       decimal_numeral sr r = true /\ decimal_numeral sc c = true /\
       Cell r c = Element "div" None (Some "cell") []
                    [Text ("(" ++ sr ++ ", " ++ sc ++ ")")])
  /\ Cell 2 5 = Element "div" None (Some "cell") [] [Text "(2, 5)"]
  /\ textContent (Cell 2 5) = "(2, 5)"
  /\ List.map children_of (rendered_items App_grid)
     = List.map (fun rc => [Cell (fst rc) (snd rc)]) production_set
  /\ List.map textContent (rendered_items App_grid) = production_labels
  /\ nth_error (List.map textContent (rendered_items App_grid)) 15
     = Some "(2, 5)"
  /\ nth_error production_set 15 = Some (2, 5).
Proof.
  split; [|repeat split; reflexivity].
  intros r c Hin. destruct (grid_coordinate_nonnegative r c Hin).
  now apply Cell_label.
Qed.

(** C6 (no duplicate keys). The wrappers [App] renders carry, in order, the
    keys "r-c" of the production coordinates; these keys are pairwise
    distinct, and two coordinates of the grid with the same key are the same
    coordinate. *)
Theorem keys_pairwise_distinct :
  List.map key_of (rendered_items App_grid) = List.map Some production_keys
  /\ (forall r c, key_of (grid_item (r, c)) = Some (cell_key r c))
  /\ NoDup (List.map key_of (rendered_items App_grid))
  /\ (forall a b, In a (List.concat grid) -> In b (List.concat grid) ->
        cell_key (fst a) (snd a) = cell_key (fst b) (snd b) -> a = b).
Proof.
  assert (Hkeys : List.map key_of (rendered_items App_grid)
                  = List.map Some production_keys) by reflexivity.
  split; [exact Hkeys|]. split; [reflexivity|]. split.
  - rewrite Hkeys.
    apply (has_duplicate_false_NoDup (fun a b =>
             match a, b with
             | Some s, Some t => String.eqb s t
             | _, _ => true
             end)).
    + intros [s|] b <-; [apply String.eqb_refl | reflexivity].
    + vm_compute. reflexivity.
  - intros [x y] [x' y'] Ha Hb E. simpl in E.
    destruct (grid_coordinate_nonnegative _ _ Ha).
    destruct (grid_coordinate_nonnegative _ _ Hb).
    now apply cell_key_inj.
Qed.

(** The static table [grid] holds no coordinate twice. *)
Lemma grid_has_no_duplicate :
  has_duplicate Coordinate_eqb (List.concat grid) = false
  /\ NoDup (List.concat grid).
Proof.
  split; [reflexivity|].
  apply (has_duplicate_false_NoDup Coordinate_eqb); [|reflexivity].
  intros [x y] b <-. unfold Coordinate_eqb. simpl. now rewrite !Z.eqb_refl.
Qed.

(** * The name editor *)

Lemma strict_neq_true a b : strict_neq a b = true <-> a <> b.
Proof.
  unfold strict_neq. rewrite negb_true_iff. split.
  - intros E ->. now rewrite String.eqb_refl in E.
  - intros Hne. destruct (String.eqb a b) eqn:E; [|reflexivity].
    now apply String.eqb_eq in E.
Qed.

Lemma strict_neq_same a : strict_neq a a = false.
Proof. unfold strict_neq. now rewrite String.eqb_refl. Qed.

Lemma same_deps_eq a b : same_deps a b = true -> a = b.
Proof.
  destruct a, b. unfold same_deps. simpl. rewrite andb_true_iff.
  intros [E1 E2]. apply String.eqb_eq in E1, E2. congruence.
Qed.

(** [useMemo] on a valid cell gives what computing afresh gives, and leaves
    the cell holding the current dependencies and that value. *)
Lemma useMemo_valid (f : string -> string -> bool) (a b : string) cell :
  (forall c, cell = Some c -> snd c = f (fst (fst c)) (snd (fst c))) ->
  useMemo (fun _ => f a b) (a, b) cell = (f a b, ((a, b), f a b)).
Proof.
  intros Hvalid. unfold useMemo.
  destruct cell as [[d v]|]; [|reflexivity].
  destruct (same_deps d (a, b)) eqn:E; [|reflexivity].
  apply same_deps_eq in E. subst d.
  pose proof (Hvalid _ eq_refl) as Hv. simpl in Hv. now rewrite Hv.
Qed.

Section NameChangeFacts.
Context {S : Type} `{Store S}.

(** A render reads the draft from its cell; only the first one takes it from
    the store. *)
Lemma NameChange_draft (state : S) (h : Hooks) :
  inputUserName (snd (NameChange state (Some h))) = inputUserName h.
Proof.
  unfold NameChange.
  destruct (useMemo _ _ _) as [flag memo]. reflexivity.
Qed.

Lemma NameChange_mount_draft (state : S) :
  inputUserName (snd (NameChange state None)) = selectUserName state.
Proof. reflexivity. Qed.

(** The handlers a render hands out. *)
Lemma NameChange_handlers (state : S) (fiber : option Hooks) :
  let view := fst (NameChange state fiber) in
  let hooks := snd (NameChange state fiber) in
  (forall value, input_onChange view value = [SetInputUserName value])
  /\ submit_onClick view = [Dispatch (setUserName (inputUserName hooks))]
  /\ testing_onClick view = [Alert "hello world"].
Proof.
  unfold NameChange.
  destruct (useMemo _ _ _) as [flag memo]. simpl. auto.
Qed.

(** With a valid memo cell, a render shows the flag computed from the
    current names and leaves a valid cell for them. *)
Lemma NameChange_valid (state : S) (fiber : option Hooks) :
  (forall h, fiber = Some h -> memo_valid (canChangeName_memo h)) ->
  let view := fst (NameChange state fiber) in
  let hooks := snd (NameChange state fiber) in
  submit_disabled view
    = negb (strict_neq (selectUserName state) (inputUserName hooks))
  /\ canChangeName_memo hooks
     = ((selectUserName state, inputUserName hooks),
        strict_neq (selectUserName state) (inputUserName hooks)).
Proof.
  intros Hvalid. unfold NameChange.
  rewrite (useMemo_valid strict_neq).
  - simpl. auto.
  - intros c Hc. destruct fiber as [h|]; [|discriminate].
    injection Hc as <-. now apply Hvalid.
Qed.

Lemma rerender_store (w : World S) : store (rerender w) = store w.
Proof. reflexivity. Qed.

Lemma rerender_draft (w : World S) : draft (rerender w) = draft w.
Proof. apply NameChange_draft. Qed.

Lemma current_view_handlers (w : World S) :
  (forall value, input_onChange (current_view w) value = [SetInputUserName value])
  /\ submit_onClick (current_view w) = [Dispatch (setUserName (draft w))]
  /\ testing_onClick (current_view w) = [Alert "hello world"].
Proof.
  destruct (NameChange_handlers (getState (store w)) (Some (fiber w)))
    as (Hc & Hs & Ht).
  unfold current_view, draft. repeat split; auto.
  rewrite Hs. now rewrite NameChange_draft.
Qed.

(** What each event does to the store and to the draft. *)
Lemma step_Change (w : World S) value :
  store (step w (Change value)) = store w /\ draft (step w (Change value)) = value.
Proof.
  unfold step, handler_for, run.
  destruct (current_view_handlers w) as (Hc & _ & _). rewrite Hc.
  cbn [fold_left apply_effect]. now rewrite rerender_store, rerender_draft.
Qed.

Lemma step_ClickTesting (w : World S) :
  store (step w ClickTesting) = store w /\ draft (step w ClickTesting) = draft w.
Proof.
  unfold step, handler_for, run.
  destruct (current_view_handlers w) as (_ & _ & Ht). rewrite Ht.
  cbn [fold_left apply_effect]. now rewrite rerender_store, rerender_draft.
Qed.

Lemma call_handleNameChange_spec (w : World S) :
  store (call_handleNameChange w) = dispatch (store w) (setUserName (draft w))
  /\ draft (call_handleNameChange w) = draft w.
Proof.
  unfold call_handleNameChange, run.
  destruct (current_view_handlers w) as (_ & Hs & _). rewrite Hs.
  cbn [fold_left apply_effect]. now rewrite rerender_store, rerender_draft.
Qed.

Lemma step_ClickSubmit (w : World S) :
  step w ClickSubmit
  = if canCommit w then call_handleNameChange w else rerender w.
Proof.
  unfold step, handler_for, canCommit, call_handleNameChange.
  now destruct (submit_disabled (current_view w)).
Qed.

Lemma memo_current_valid (w : World S) :
  memo_current w -> memo_valid (canChangeName_memo (fiber w)).
Proof. unfold memo_current, memo_valid. now intros ->. Qed.

Lemma mount_memo_current st : memo_current (mount st).
Proof.
  unfold memo_current, mount, committed, draft. cbn [store fiber].
  apply (NameChange_valid (getState st) None). discriminate.
Qed.

Lemma rerender_memo_current (w : World S) :
  memo_valid (canChangeName_memo (fiber w)) -> memo_current (rerender w).
Proof.
  intros Hv. unfold memo_current, rerender, committed, draft. cbn [store fiber].
  apply (NameChange_valid (getState (store w)) (Some (fiber w))).
  now intros h [= <-].
Qed.

Lemma run_memo_current (w : World S) effects :
  memo_valid (canChangeName_memo (fiber w)) -> memo_current (run w effects).
Proof.
  intros Hv. apply rerender_memo_current.
  revert w Hv. induction effects as [|eff effects IH]; intros w Hv; [exact Hv|].
  cbn [fold_left]. apply IH. now destruct eff.
Qed.

Lemma reachable_memo_current (w : World S) : reachable w -> memo_current w.
Proof.
  induction 1 as [st|w e Hw IH].
  - apply mount_memo_current.
  - apply run_memo_current, memo_current_valid, IH.
Qed.

(** In a reachable world the flag on screen is the comparison of the two
    names, and rendering again changes nothing. *)
Lemma reachable_canCommit (w : World S) :
  reachable w -> canCommit w = strict_neq (committed w) (draft w).
Proof.
  intros Hw. apply reachable_memo_current, memo_current_valid in Hw.
  unfold canCommit, current_view, committed, draft.
  destruct (NameChange_valid (getState (store w)) (Some (fiber w))) as [Hd _].
  - now intros h [= <-].
  - rewrite Hd, negb_involutive. now rewrite NameChange_draft.
Qed.

Lemma reachable_rerender (w : World S) : reachable w -> rerender w = w.
Proof.
  intros Hw. pose proof (reachable_memo_current w Hw) as Hm.
  destruct (NameChange_valid (getState (store w)) (Some (fiber w))) as [_ Hc].
  - intros h [= <-]. now apply memo_current_valid.
  - destruct w as [st [d m]]. unfold rerender. cbn [store fiber] in *. f_equal.
    pose proof (NameChange_draft (getState st)
                  {| inputUserName := d; canChangeName_memo := m |}) as Hd.
    destruct (snd (NameChange (getState st) _)) as [d' m'].
    cbn [inputUserName canChangeName_memo] in *. subst d'.
    unfold memo_current, committed, draft in Hm. cbn in Hm. congruence.
Qed.

End NameChangeFacts.

(** * The claims about the name editor *)

Lemma last_cons {A} (l : list A) (a d : A) : last (a :: l) d = last l a.
Proof.
  revert a d. induction l as [|b l IH]; intros a d; [reflexivity|].
  change (last (a :: b :: l) d) with (last (b :: l) d).
  now rewrite (IH b d), (IH b a).
Qed.

(** Mounting on a store and typing a text gives a reachable world with the
    store's name committed and the text as draft. *)
Lemma typed_world {S} `{Store S} (st : ReduxStore S) (text : string) :
  reachable (step (mount st) (Change text))
  /\ committed (step (mount st) (Change text)) = selectUserName (getState st)
  /\ draft (step (mount st) (Change text)) = text.
Proof.
  split; [repeat constructor|].
  destruct (step_Change (mount st) text) as [Hs Hd].
  split; [unfold committed; now rewrite Hs | exact Hd].
Qed.

(** C2 (enablement law). In every world the page can reach, on any store,
    the flag the submit button shows is true exactly when the committed name
    and the draft differ. Nothing writes the flag: it is recomputed, through
    its memo cell, from the two names at each render. Every pair occurs:
    whatever name a store holds and whatever text is typed (the empty string
    included), the draft is that text and the flag is true exactly when the
    two differ; and for all pairs of strings there is a reachable world, on
    the store of the user slice, with the one committed and the other as
    draft, where the flag is true exactly when they differ. *)
Theorem canCommit_law :
  (forall S (store_S : Store S) (w : World S),
     reachable w -> (canCommit w = true <-> committed w <> draft w))
  /\ (forall S (store_S : Store S) (st : ReduxStore S) (text : string),
        committed (step (mount st) (Change text)) = selectUserName (getState st)
        /\ draft (step (mount st) (Change text)) = text
        /\ (canCommit (step (mount st) (Change text)) = true
            <-> selectUserName (getState st) <> text))
  /\ (forall name text : string,
        exists w : World UserSlice.RootState,
          reachable w /\ committed w = name /\ draft w = text
          /\ (canCommit w = true <-> name <> text)).
Proof.
  assert (Hlaw : forall S (store_S : Store S) (w : World S),
            reachable w -> (canCommit w = true <-> committed w <> draft w)).
  { intros S store_S w Hw. rewrite (reachable_canCommit w Hw).
    apply strict_neq_true. }
  split; [exact Hlaw|]. split.
  - intros S store_S st text.
    destruct (typed_world st text) as (Hw & Hc & Hd).
    split; [exact Hc|]. split; [exact Hd|].
    pose proof (Hlaw _ _ _ Hw) as L. rewrite Hc, Hd in L. exact L.
  - intros name text.
    exists (step (mount {| getState := {| UserSlice.userName := name |};
                           dispatched := [] |}) (Change text)).
    destruct (typed_world {| getState := {| UserSlice.userName := name |};
                             dispatched := [] |} text) as (Hw & Hc & Hd).
    split; [exact Hw|]. split; [exact Hc|]. split; [exact Hd|].
    pose proof (Hlaw _ _ _ Hw) as L. rewrite Hc, Hd in L. exact L.
Qed.

(** C3 (draft isolation). Edits never write the store: after any sequence
    of edits the store (state and dispatch log) is what it was, the committed
    name read from it is unchanged, and the draft is the last text typed.
    Of all events only a click on the enabled submit button changes the
    store. Such a click does write: it dispatches exactly one action,
    [setUserName] of the draft, so the log is one longer; a click on the
    disabled button writes nothing. *)
Theorem edit_never_writes_store {S} `{Store S} (w : World S) (texts : list string) :
  store (fold_left step (List.map Change texts) w) = store w
  /\ committed (fold_left step (List.map Change texts) w) = committed w
  /\ draft (fold_left step (List.map Change texts) w) = last texts (draft w)
  /\ (forall e,
        store (step w e) = store w
        \/ (e = ClickSubmit /\ canCommit w = true
            /\ store (step w e) = dispatch (store w) (setUserName (draft w))
            /\ dispatched (store (step w e))
               = setUserName (draft w) :: dispatched (store w)))
  /\ (canCommit w = true ->
      store (step w ClickSubmit) = dispatch (store w) (setUserName (draft w))
      /\ dispatched (store (step w ClickSubmit))
         = setUserName (draft w) :: dispatched (store w)
      /\ length (dispatched (store (step w ClickSubmit)))
         = Datatypes.S (length (dispatched (store w))))
  /\ (canCommit w = false -> store (step w ClickSubmit) = store w).
Proof.
  assert (Hedits : forall ts (v : World S),
            store (fold_left step (List.map Change ts) v) = store v
            /\ draft (fold_left step (List.map Change ts) v) = last ts (draft v)).
  { induction ts as [|t ts IH]; intros v; [now split|].
    cbn [List.map fold_left].
    destruct (step_Change v t) as [Hs Hd].
    destruct (IH (step v (Change t))) as [IHs IHd].
    split; [congruence|].
    rewrite IHd, Hd. symmetry. apply last_cons. }
  destruct (Hedits texts w) as [Hs Hd].
  split; [exact Hs|]. split; [unfold committed; now rewrite Hs|].
  split; [exact Hd|].
  split; [|split].
  - intros [value| |].
    + left. apply step_Change.
    + rewrite step_ClickSubmit. destruct (canCommit w) eqn:E.
      * right. destruct (call_handleNameChange_spec w) as [Hc _].
        rewrite Hc. repeat split.
      * left. apply rerender_store.
    + left. apply step_ClickTesting.
  - intros E. rewrite step_ClickSubmit, E.
    destruct (call_handleNameChange_spec w) as [Hc _].
    rewrite Hc. repeat split.
  - intros E. rewrite step_ClickSubmit, E. apply rerender_store.
Qed.

(** On the user slice every pair of a committed name and a draft occurs in a
    reachable world: mount on a store that holds the one, type the other. *)
Lemma every_pair_reachable (name text : string) :
  exists w : World UserSlice.RootState,
    reachable w /\ committed w = name /\ draft w = text.
Proof.
  exists (step (mount {| getState := {| UserSlice.userName := name |};
                         dispatched := [] |}) (Change text)).
  split; [repeat constructor|].
  destruct (step_Change (mount {| getState := {| UserSlice.userName := name |};
                                  dispatched := [] |}) text) as [Hs Hd].
  split; [unfold committed; now rewrite Hs | exact Hd].
Qed.

Lemma UserSlice_select_set (st : ReduxStore UserSlice.RootState) value :
  selectUserName (getState (dispatch st (setUserName value))) = value.
Proof. reflexivity. Qed.

(** C1 (commit). With the committed name and the draft different, the
    submit button is enabled, and a click dispatches one [setUserName]: the
    very next read of the committed name gives the draft, the flag is then
    false, and a second click changes nothing at all. *)
Theorem commit_then_disabled (w : World UserSlice.RootState) :
  reachable w ->
  committed w <> draft w ->
  canCommit w = true
  /\ store (step w ClickSubmit) = dispatch (store w) (setUserName (draft w))
  /\ selectUserName (getState (store (step w ClickSubmit))) = draft w
  /\ committed (step w ClickSubmit) = draft w
  /\ canCommit (step w ClickSubmit) = false
  /\ step (step w ClickSubmit) ClickSubmit = step w ClickSubmit.
Proof.
  intros Hw Hne.
  assert (Hcan : canCommit w = true)
    by (rewrite (reachable_canCommit w Hw); now apply strict_neq_true).
  assert (Hw' : reachable (step w ClickSubmit)) by now constructor.
  destruct (call_handleNameChange_spec w) as [Hs Hd].
  assert (Hstore : store (step w ClickSubmit)
                   = dispatch (store w) (setUserName (draft w)))
    by (rewrite step_ClickSubmit, Hcan; exact Hs).
  assert (Hdraft : draft (step w ClickSubmit) = draft w)
    by (rewrite step_ClickSubmit, Hcan; exact Hd).
  assert (Hcommitted : committed (step w ClickSubmit) = draft w)
    by (unfold committed; rewrite Hstore; apply UserSlice_select_set).
  assert (Hoff : canCommit (step w ClickSubmit) = false)
    by (rewrite (reachable_canCommit _ Hw'), Hcommitted, Hdraft;
        apply strict_neq_same).
  repeat split; auto.
  rewrite (step_ClickSubmit (step w ClickSubmit)), Hoff.
  now apply reachable_rerender.
Qed.

(** C7 (round trip). Mount (the draft starts as the committed name), type
    X, click submit, then mount a fresh instance on the same store: its draft
    and the committed name are both X. *)
Theorem round_trip (st : ReduxStore UserSlice.RootState) (X : string) :
  draft (mount st) = committed (mount st)
  /\ draft (mount (store (step (step (mount st) (Change X)) ClickSubmit))) = X
  /\ committed (mount (store (step (step (mount st) (Change X)) ClickSubmit))) = X.
Proof.
  split; [reflexivity|].
  set (w2 := step (mount st) (Change X)).
  assert (Hw2 : reachable w2) by (repeat constructor).
  destruct (step_Change (mount st) X) as [Hs2 Hd2]. fold w2 in Hs2, Hd2.
  assert (Hc : selectUserName (getState (store (step w2 ClickSubmit))) = X).
  { rewrite step_ClickSubmit. destruct (canCommit w2) eqn:E.
    - destruct (call_handleNameChange_spec w2) as [Hs _].
      rewrite Hs, Hd2. apply UserSlice_select_set.
    - rewrite rerender_store.
      rewrite (reachable_canCommit w2 Hw2) in E.
      unfold strict_neq in E. apply negb_false_iff, String.eqb_eq in E.
      rewrite <- Hd2. exact E. }
  split; exact Hc.
Qed.

(** C9 (commit leaves the draft alone). On any store, running the commit
    handler, through the button or directly, leaves the draft as it was, and
    the flag afterwards is still the comparison of the committed name with
    that draft. On the user slice the committed name read afterwards is the
    draft, which is why the flag is then false. *)
Theorem commit_keeps_draft :
  (forall S (store_S : Store S) (w : World S),
     draft (call_handleNameChange w) = draft w
     /\ draft (step w ClickSubmit) = draft w
     /\ (reachable w ->
         canCommit (step w ClickSubmit)
         = strict_neq (committed (step w ClickSubmit)) (draft w)))
  /\ (forall w : World UserSlice.RootState,
        reachable w ->
        committed (step w ClickSubmit) = draft w
        /\ canCommit (step w ClickSubmit) = false).
Proof.
  assert (Hframe : forall S (store_S : Store S) (w : World S),
            draft (step w ClickSubmit) = draft w).
  { intros S store_S w. rewrite step_ClickSubmit.
    destruct (canCommit w); [apply call_handleNameChange_spec | apply rerender_draft]. }
  split.
  - intros S store_S w. split; [apply call_handleNameChange_spec|].
    split; [apply Hframe|].
    intros Hw. rewrite <- (Hframe S store_S w).
    apply reachable_canCommit. now constructor.
  - intros w Hw.
    assert (Hc : committed (step w ClickSubmit) = draft w).
    { unfold committed. rewrite step_ClickSubmit. destruct (canCommit w) eqn:E.
      - destruct (call_handleNameChange_spec w) as [Hs _]. rewrite Hs.
        apply UserSlice_select_set.
      - rewrite rerender_store. rewrite (reachable_canCommit w Hw) in E.
        unfold strict_neq in E. now apply negb_false_iff, String.eqb_eq in E. }
    split; [exact Hc|].
    rewrite reachable_canCommit by now constructor.
    rewrite Hc, Hframe. apply strict_neq_same.
Qed.

(** C10 (the handler called past the disabled button). Called directly, whatever the
    button's state, [handleNameChange] makes the committed name equal to the
    draft. Called while the two are already equal it leaves the store's state
    as it was, and calling it twice in a row gives the same state as calling
    it once. *)
Theorem handler_establishes_committed (w : World UserSlice.RootState) :
  committed (call_handleNameChange w) = draft w
  /\ (committed w = draft w ->
      getState (store (call_handleNameChange w)) = getState (store w))
  /\ getState (store (call_handleNameChange (call_handleNameChange w)))
     = getState (store (call_handleNameChange w)).
Proof.
  destruct (call_handleNameChange_spec w) as [Hs Hd].
  destruct (call_handleNameChange_spec (call_handleNameChange w)) as [Hs2 _].
  split; [unfold committed; rewrite Hs; apply UserSlice_select_set|].
  split.
  - intros E. rewrite Hs. unfold committed in E.
    destruct w as [[[name] log] h]. cbn in *. now rewrite E.
  - rewrite Hs2, Hd, Hs. reflexivity.
Qed.

(** * The specification's examples, run *)

Lemma bob_typed_reachable : reachable bob_typed.
Proof. unfold bob_typed, alice_mounted. repeat constructor. Qed.

Lemma bob_typed_differs : committed bob_typed <> draft bob_typed.
Proof. intros E. vm_compute in E. discriminate. Qed.

(** Draft isolation: with "Alice" committed, typing "Bob" leaves "Alice"
    committed; only the draft is "Bob". *)
Example draft_isolation_Alice_Bob :
  committed alice_mounted = "Alice"
  /\ committed bob_typed = "Alice" /\ draft bob_typed = "Bob"
  /\ dispatched (store bob_typed) = [].
Proof. repeat split. Qed.

(** Commit: the click turns "Alice" into "Bob" with one dispatch; a second
    click dispatches nothing. *)
Example commit_Alice_Bob :
  committed (step bob_typed ClickSubmit) = "Bob"
  /\ dispatched (store (step bob_typed ClickSubmit)) = [setUserName "Bob"]
  /\ canCommit (step bob_typed ClickSubmit) = false
  /\ dispatched (store (step (step bob_typed ClickSubmit) ClickSubmit))
     = [setUserName "Bob"].
Proof. repeat split. Qed.

(** The empty string on either side of the comparison. *)
Example canCommit_empty_names :
  canCommit (step alice_mounted (Change "")) = true
  /\ canCommit (mount {| getState := {| UserSlice.userName := "" |};
                         dispatched := [] |}) = false
  /\ canCommit (step (mount {| getState := {| UserSlice.userName := "" |};
                               dispatched := [] |}) (Change "x")) = true.
Proof. repeat split. Qed.

(** The enablement law at work: "Alice" committed, "Bob" typed. *)
Lemma canCommit_law_witness :
  reachable bob_typed
  /\ committed bob_typed = "Alice" /\ draft bob_typed = "Bob"
  /\ canCommit bob_typed = true
  /\ (canCommit bob_typed = true <-> committed bob_typed <> draft bob_typed).
Proof.
  split; [exact bob_typed_reachable|].
  split; [reflexivity|]. split; [reflexivity|]. split; [reflexivity|].
  exact (proj1 canCommit_law _ _ bob_typed bob_typed_reachable).
Defined.

(** One commit, one write: with "Bob" typed over "Alice" the button is
    enabled and the click leaves exactly the action [setUserName "Bob"] in
    the log. *)
Lemma edit_never_writes_store_witness :
  canCommit bob_typed = true
  /\ store (step bob_typed ClickSubmit)
     = dispatch (store bob_typed) (setUserName (draft bob_typed))
  /\ dispatched (store (step bob_typed ClickSubmit)) = [setUserName "Bob"].
Proof.
  assert (E : canCommit bob_typed = true) by reflexivity.
  split; [exact E|].
  destruct (proj1 (proj2 (proj2 (proj2 (proj2
              (edit_never_writes_store bob_typed []))))) E) as (Hs & Hl & _).
  split; [exact Hs | exact Hl].
Defined.

(** The commit theorem at work: "Alice" committed, "Bob" typed, submit
    clicked. *)
Lemma commit_then_disabled_witness :
  reachable bob_typed /\ committed bob_typed <> draft bob_typed
  /\ canCommit bob_typed = true
  /\ store (step bob_typed ClickSubmit)
     = dispatch (store bob_typed) (setUserName (draft bob_typed))
  /\ selectUserName (getState (store (step bob_typed ClickSubmit))) = draft bob_typed
  /\ committed (step bob_typed ClickSubmit) = draft bob_typed
  /\ canCommit (step bob_typed ClickSubmit) = false
  /\ step (step bob_typed ClickSubmit) ClickSubmit = step bob_typed ClickSubmit.
Proof.
  split; [exact bob_typed_reachable|]. split; [exact bob_typed_differs|].
  exact (commit_then_disabled bob_typed bob_typed_reachable bob_typed_differs).
Defined.

(** The draft "Bob" survives the commit that makes it the committed name. *)
Lemma commit_keeps_draft_witness :
  reachable bob_typed
  /\ draft (step bob_typed ClickSubmit) = draft bob_typed
  /\ committed (step bob_typed ClickSubmit) = draft bob_typed
  /\ canCommit (step bob_typed ClickSubmit) = false.
Proof.
  split; [exact bob_typed_reachable|].
  split.
  - exact (proj1 (proj2 (proj1 commit_keeps_draft _ _ bob_typed))).
  - exact (proj2 commit_keeps_draft bob_typed bob_typed_reachable).
Defined.

(** After "Bob" is committed the button is disabled; calling the handler all
    the same leaves the store's state as it is. *)
Lemma handler_establishes_committed_witness :
  committed (step bob_typed ClickSubmit) = draft (step bob_typed ClickSubmit)
  /\ getState (store (call_handleNameChange (step bob_typed ClickSubmit)))
     = getState (store (step bob_typed ClickSubmit)).
Proof.
  split; [reflexivity|].
  exact (proj1 (proj2 (handler_establishes_committed (step bob_typed ClickSubmit)))
           eq_refl).
Defined.

(** * Further properties of the grid *)

Lemma NilZero_digits d : string_forall is_digit (NilZero.string_of_uint d) = true.
Proof. destruct d; try apply uint_digits; reflexivity. Qed.

(** The shape of a numeral: digits, the first of them there, after a minus
    sign below zero. *)
Lemma Number_toString_shape z :
  exists ch ds,
    string_forall is_digit (String ch ds) = true
    /\ Number_toString z = if Z.ltb z 0 then String "-" (String ch ds) else String ch ds.
Proof.
  assert (Hpos : forall p, exists ch ds,
            string_forall is_digit (String ch ds) = true
            /\ NilZero.string_of_uint (Pos.to_uint p) = String ch ds).
  { intros p. pose proof (NilZero_digits (Pos.to_uint p)) as Hd.
    destruct (NilZero.string_of_uint (Pos.to_uint p)) as [|ch ds] eqn:E.
    - destruct (Pos.to_uint p); discriminate.
    - now exists ch, ds. }
  destruct z as [|p|p].
  - now exists "0"%char, "".
  - destruct (Hpos p) as (ch & ds & Hd & E). exists ch, ds. split; [exact Hd|].
    unfold Number_toString. simpl. exact E.
  - destruct (Hpos p) as (ch & ds & Hd & E). exists ch, ds. split; [exact Hd|].
    unfold Number_toString. simpl. now rewrite E.
Qed.

(** No numeral, of any integer, holds a character that is neither a digit
    nor the minus sign. *)
Lemma Number_toString_lacks_any sep z :
  is_digit sep = false -> sep <> "-"%char ->
  string_forall (is_not sep) (Number_toString z) = true.
Proof.
  intros Hsep Hminus.
  destruct (Number_toString_shape z) as (ch & ds & Hd & ->).
  apply (string_forall_weaken _ _ _ (digit_is_not sep Hsep)) in Hd.
  destruct (Z.ltb z 0); [|exact Hd].
  change (is_not sep "-" && string_forall (is_not sep) (String ch ds) = true).
  rewrite Hd, andb_true_r. unfold is_not.
  apply negb_true_iff, Ascii.eqb_neq. congruence.
Qed.

Lemma span_digits_stop ds ch rest :
  string_forall is_digit ds = true -> is_digit ch = false ->
  span_digits (ds ++ String ch rest) = (ds, String ch rest).
Proof.
  intros Hds Hch. induction ds as [|d ds IH]; simpl.
  - now rewrite Hch.
  - simpl in Hds. apply andb_true_iff in Hds as [Hd Hds].
    now rewrite Hd, (IH Hds).
Qed.

(** Reading a numeral off the front of a text gives it back whole, when what
    follows does not start with a digit. *)
Lemma read_numeral_stop z ch rest :
  is_digit ch = false ->
  read_numeral (Number_toString z ++ String ch rest)
  = (Number_toString z, String ch rest).
Proof.
  intros Hch.
  destruct (Number_toString_shape z) as (d & ds & Hd & ->).
  destruct (Z.ltb z 0).
  - cbn [append read_numeral]. rewrite Ascii.eqb_refl.
    change (String d (ds ++ String ch rest)) with (String d ds ++ String ch rest).
    now rewrite (span_digits_stop _ _ _ Hd Hch).
  - assert (Hnot : Ascii.eqb d "-" = false).
    { apply Ascii.eqb_neq. intros ->. discriminate. }
    cbn [append read_numeral]. rewrite Hnot.
    change (String d (ds ++ String ch rest)) with (String d ds ++ String ch rest).
    now rewrite (span_digits_stop _ _ _ Hd Hch).
Qed.

Lemma read_pair_Number_toString x y :
  read_pair (Number_toString x) (Number_toString y) = Some (x, y).
Proof. unfold read_pair. now rewrite !read_int_Number_toString. Qed.

Lemma grid_area_cell_gridArea r c :
  Css.grid_area (cell_gridArea r c) = Some (r + 1, c + 1, r + 1, c + 1).
Proof.
  assert (Hlacks : forall z, string_forall (is_not " ") (Number_toString z) = true)
    by (intros z; apply Number_toString_lacks_any; [reflexivity | discriminate]).
  unfold cell_gridArea, Css.grid_area.
  change (" / " ++ ?s) with (String " " ("/" ++ String " " s)).
  rewrite (split_on_first _ _ _ (Hlacks _)), (split_on_first " " "/" _ eq_refl).
  change (" / " ++ ?s) with (String " " ("/" ++ String " " s)).
  rewrite (split_on_first _ _ _ (Hlacks _)), (split_on_first " " "/" _ eq_refl).
  change (" / " ++ ?s) with (String " " ("/" ++ String " " s)).
  rewrite (split_on_first _ _ _ (Hlacks _)), (split_on_first " " "/" _ eq_refl).
  rewrite (split_on_whole _ _ (Hlacks _)).
  cbn [String.eqb Ascii.eqb Bool.eqb andb].
  now rewrite !read_int_Number_toString.
Qed.

(** X1. The placement rule beyond the production table: for every
    coordinate (r, c) that is not negative and below
    [Number.MAX_SAFE_INTEGER] (where r+1 and c+1 are computed exactly), the
    wrapper reads back as starting and ending on row line r+1 and column
    line c+1. Two such wrappers with the same style are therefore wrappers
    of the same coordinate: no two coordinates are given the same grid
    area. *)
Theorem placement_safe_coordinate :
  (forall r c, placeable (r, c) ->
     placement (grid_item (r, c)) = Some (r + 1, c + 1, r + 1, c + 1))
  /\ (forall a b, placeable a -> placeable b ->
        style_of (grid_item a) = style_of (grid_item b) -> a = b).
Proof.
  assert (Hplace : forall r c,
            placement (grid_item (r, c)) = Some (r + 1, c + 1, r + 1, c + 1)).
  { intros r c. unfold placement, grid_item. cbn [style_of Css.declaration].
    rewrite String.eqb_refl. apply grid_area_cell_gridArea. }
  split; [intros r c _; apply Hplace|].
  intros [r c] [r' c'] _ _ E.
  assert (E' : placement (grid_item (r, c)) = placement (grid_item (r', c')))
    by (unfold placement; now rewrite E).
  rewrite !Hplace in E'. injection E' as Hr Hc _ _. f_equal; lia.
Qed.

Lemma read_key_cell_key x y : read_key (cell_key x y) = Some (x, y).
Proof.
  unfold read_key, cell_key. change ("-" ++ ?s) with (String "-" s).
  rewrite (read_numeral_stop x "-" _ eq_refl). cbn [Ascii.eqb Bool.eqb].
  apply read_pair_Number_toString.
Qed.

(** X2. The key names its coordinate, for every pair of safe integers,
    negative ones included: reading the key [`${x}-${y}`] back gives (x, y),
    also when a numeral carries a minus sign next to the hyphen, so two such
    coordinates with the same key are the same. *)
Theorem cell_key_round_trip :
  (forall x y, safe_coordinate (x, y) -> read_key (cell_key x y) = Some (x, y))
  /\ (forall a b, safe_coordinate a -> safe_coordinate b ->
        cell_key (fst a) (snd a) = cell_key (fst b) (snd b) -> a = b).
Proof.
  split; [intros x y _; apply read_key_cell_key|].
  intros [x y] [x' y'] _ _ E. cbn [fst snd] in E.
  apply (f_equal read_key) in E.
  rewrite !read_key_cell_key in E. now injection E as -> ->.
Qed.

Lemma read_label_Cell x y : read_label (textContent (Cell x y)) = Some (x, y).
Proof.
  unfold Cell. cbn [textContent List.map String.concat].
  unfold read_label. change ("(" ++ ?s) with (String "(" s).
  cbn [Css.strip_prefix Ascii.eqb Bool.eqb].
  change (", " ++ ?s) with (String "," (String " " s)).
  rewrite (read_numeral_stop x "," _ eq_refl).
  cbn [Css.strip_prefix Ascii.eqb Bool.eqb].
  change (")") with (String ")" "").
  rewrite (read_numeral_stop y ")" "" eq_refl).
  cbn [String.eqb Ascii.eqb Bool.eqb].
  apply read_pair_Number_toString.
Qed.

(** X3. The label names its coordinate, for every pair of safe integers,
    negative ones included: reading the text of the cell for (x, y) back
    gives (x, y), so two such cells that show the same text are cells of the
    same coordinate. *)
Theorem Cell_label_round_trip :
  (forall x y, safe_coordinate (x, y) ->
     read_label (textContent (Cell x y)) = Some (x, y))
  /\ (forall a b, safe_coordinate a -> safe_coordinate b ->
        textContent (Cell (fst a) (snd a)) = textContent (Cell (fst b) (snd b)) ->
        a = b).
Proof.
  split; [intros x y _; apply read_label_Cell|].
  intros [x y] [x' y'] _ _ E. cbn [fst snd] in E.
  apply (f_equal read_label) in E.
  rewrite !read_label_Cell in E. now injection E as -> ->.
Qed.

Lemma key_of_grid_item xy :
  key_of (grid_item xy) = Some (cell_key (fst xy) (snd xy)).
Proof. now destruct xy. Qed.

Lemma key_of_grid_item_inj a b :
  key_of (grid_item a) = key_of (grid_item b) -> a = b.
Proof.
  rewrite !key_of_grid_item. intros [= E]. apply (f_equal read_key) in E.
  rewrite !read_key_cell_key in E. destruct a, b. now injection E as -> ->.
Qed.

Lemma NoDup_map_iff {A B} (f : A -> B) (l : list A) :
  (forall a b, f a = f b -> a = b) -> (NoDup (List.map f l) <-> NoDup l).
Proof.
  intros Hinj. induction l as [|a l IH]; simpl.
  - split; constructor.
  - split; intros Hnd; inversion Hnd as [|? ? Hnotin Hnd']; subst; constructor.
    + intros Hin. apply Hnotin. now apply in_map.
    + now apply IH.
    + intros Hin. apply in_map_iff in Hin as (b & E & Hb).
      apply Hinj in E. now subst.
    + now apply IH.
Qed.

(** X4. Keys collide exactly when coordinates repeat, for any table of
    safe-integer coordinates: the keys of the wrappers of one row array are
    pairwise distinct if and only if the row's coordinates are, and the same
    holds for all the wrappers of the table together. *)
Theorem keys_distinct_iff_coordinates_distinct :
  (forall row : list Coordinate,
     Forall safe_coordinate row ->
     (NoDup (List.map key_of (List.map grid_item row)) <-> NoDup row))
  /\ (forall spec : list (list Coordinate),
        Forall safe_coordinate (List.concat spec) ->
        (NoDup (List.map key_of (flatten (layout spec)))
         <-> NoDup (List.concat spec))).
Proof.
  split.
  - intros row _. rewrite map_map.
    apply NoDup_map_iff. intros a b. apply key_of_grid_item_inj.
  - intros spec _. rewrite flatten_layout, map_map.
    apply NoDup_map_iff. intros a b. apply key_of_grid_item_inj.
Qed.

(** * Further properties of the name editor *)

Lemma same_deps_refl d : same_deps d d = true.
Proof. unfold same_deps. now rewrite !String.eqb_refl. Qed.

Section NameChangeRuns.
Context {S : Type} `{Store S}.

(** What a render shows of the two names. *)
Lemma NameChange_shows (state : S) (h : Hooks) :
  input_value (fst (NameChange state (Some h))) = inputUserName h
  /\ paragraph (fst (NameChange state (Some h)))
     = "Don't like the name " ++ selectUserName state ++ "? Change It!".
Proof.
  unfold NameChange. destruct (useMemo _ _ _) as [flag memo]. now split.
Qed.

Lemma memo_current_canCommit (w : World S) :
  memo_current w -> canCommit w = strict_neq (committed w) (draft w).
Proof.
  intros Hm. apply memo_current_valid in Hm.
  unfold canCommit, current_view, committed, draft.
  destruct (NameChange_valid (getState (store w)) (Some (fiber w))) as [Hd _].
  - now intros h [= <-].
  - rewrite Hd, negb_involutive. now rewrite NameChange_draft.
Qed.

(** X5. Rendering is idempotent, in any world (whatever its memo cell
    holds): a second render in a row leaves the hook cells as the first one
    left them, and a render shows the tree that was already on screen. *)
Theorem render_idempotent (w : World S) :
  rerender (rerender w) = rerender w
  /\ current_view (rerender w) = current_view w.
Proof.
  destruct w as [st [d [deps v]]].
  unfold current_view, rerender, NameChange, useMemo.
  cbn [store fiber option_map inputUserName canChangeName_memo useState].
  destruct (same_deps deps (selectUserName (getState st), d)) eqn:E.
  - cbn [store fiber option_map inputUserName canChangeName_memo useState fst snd].
    rewrite E. now split.
  - cbn [store fiber option_map inputUserName canChangeName_memo useState fst snd].
    rewrite same_deps_refl. now split.
Qed.

(** X6. A freshly mounted editor, on any store: the draft is the committed
    name, the input shows it, and the submit button is disabled. *)
Theorem mount_is_clean (st : ReduxStore S) :
  draft (mount st) = selectUserName (getState st)
  /\ input_value (current_view (mount st)) = selectUserName (getState st)
  /\ canCommit (mount st) = false
  /\ store (mount st) = st.
Proof.
  assert (Hd : draft (mount st) = selectUserName (getState st)) by reflexivity.
  split; [exact Hd|]. split; [|split; [|reflexivity]].
  - unfold current_view. rewrite (proj1 (NameChange_shows _ _)). exact Hd.
  - rewrite (memo_current_canCommit _ (mount_memo_current st)), Hd.
    apply strict_neq_same.
Qed.

(** X7. Typing decides the button: after the text [value] is typed, the
    submit button is enabled exactly when [value] differs from the committed
    name. Typing the committed name back disables it again. *)
Theorem typing_decides_enablement (w : World S) (value : string) :
  reachable w ->
  canCommit (step w (Change value)) = strict_neq (committed w) value
  /\ canCommit (step w (Change (committed w))) = false.
Proof.
  intros Hw.
  assert (Hgen : forall v,
            canCommit (step w (Change v)) = strict_neq (committed w) v).
  { intros v. rewrite reachable_canCommit by now constructor.
    destruct (step_Change w v) as [Hs Hd].
    unfold committed. now rewrite Hs, Hd. }
  split; [apply Hgen|]. rewrite Hgen. apply strict_neq_same.
Qed.

(** X8. The input is controlled by the draft and the paragraph by the
    store, in any world: after the text [value] is typed the input shows
    [value], and the paragraph still reads "Don't like the name N? Change
    It!" for the committed name N, which typing does not change. *)
Theorem typing_shows_in_input_only (w : World S) (value : string) :
  input_value (current_view (step w (Change value))) = value
  /\ paragraph (current_view (step w (Change value)))
     = "Don't like the name " ++ committed w ++ "? Change It!"
  /\ paragraph (current_view (step w (Change value))) = paragraph (current_view w).
Proof.
  destruct (step_Change w value) as [Hs Hd].
  unfold current_view.
  destruct (NameChange_shows (getState (store (step w (Change value))))
              (fiber (step w (Change value)))) as [Hi Hp].
  destruct (NameChange_shows (getState (store w)) (fiber w)) as [_ Hp0].
  rewrite Hi, Hp, Hp0, Hs. now repeat split.
Qed.

Lemma step_ClickSubmit_cases (w : World S) :
  draft (step w ClickSubmit) = draft w
  /\ (store (step w ClickSubmit) = store w
      \/ store (step w ClickSubmit) = dispatch (store w) (setUserName (draft w))).
Proof.
  rewrite step_ClickSubmit. destruct (canCommit w).
  - destruct (call_handleNameChange_spec w) as [Hs Hd]. auto.
  - split; [apply rerender_draft | left; apply rerender_store].
Qed.

(** X9. What a run of events can do to the store, from any world: the
    actions dispatched before stay in the log; at most one action is added
    per click on the submit button; every added action carries a text that
    was typed during the run or the draft the run started with; and the
    store's state is the reducer run over the added actions. *)
Theorem run_dispatches_only_drafts (w : World S) (events : list Event) :
  exists added : list Action,
    dispatched (store (fold_left step events w))
    = (added ++ dispatched (store w))%list
    /\ (length added <= submit_clicks events)%nat
    /\ Forall (fun a => In (payload a) (draft w :: typed_texts events)) added
    /\ getState (store (fold_left step events w))
       = fold_right (fun a s => reducer s a) (getState (store w)) added.
Proof.
  revert w. induction events as [|e events IH]; intros w.
  - exists []. repeat split; auto.
  - cbn [fold_left]. destruct (IH (step w e)) as (added & Hlog & Hlen & Hfrom & Hstate).
    destruct e as [value| |].
    + destruct (step_Change w value) as [Hs Hd]. rewrite Hs, Hd in *.
      exists added. cbn [submit_clicks typed_texts]. repeat split; auto.
      eapply Forall_impl; [|exact Hfrom].
      intros a [Ha|Ha]; [right; left; exact Ha | right; right; exact Ha].
    + destruct (step_ClickSubmit_cases w) as [Hd [Hs|Hs]];
        rewrite Hs, Hd in *; cbn [submit_clicks typed_texts].
      * exists added. repeat split; auto.
      * exists (added ++ [setUserName (draft w)])%list.
        cbn [dispatch dispatched getState] in Hlog, Hstate.
        rewrite <- app_assoc, length_app, fold_right_app.
        cbn [List.app length fold_right]. repeat split; auto; [lia|].
        apply Forall_app. split; [exact Hfrom|].
        constructor; [now left | constructor].
    + destruct (step_ClickTesting w) as [Hs Hd]. rewrite Hs, Hd in *.
      exists added. cbn [submit_clicks typed_texts]. repeat split; auto.
Qed.

(** X10. When the store's content changes from elsewhere, the mounted editor
    keeps its draft (the committed name is only the draft's initial value),
    the paragraph shows the new committed name, and the submit button is
    enabled exactly when the new committed name differs from the draft: the
    memoised flag is recomputed, not served stale. *)
Theorem store_change_keeps_draft (w : World S) (st : ReduxStore S) :
  reachable w ->
  draft (store_changed w st) = draft w
  /\ committed (store_changed w st) = selectUserName (getState st)
  /\ canCommit (store_changed w st)
     = strict_neq (selectUserName (getState st)) (draft w)
  /\ paragraph (current_view (store_changed w st))
     = "Don't like the name " ++ selectUserName (getState st) ++ "? Change It!".
Proof.
  intros Hw.
  assert (Hd : draft (store_changed w st) = draft w)
    by (unfold store_changed; now rewrite rerender_draft).
  assert (Hm : memo_current (store_changed w st)).
  { unfold store_changed. apply rerender_memo_current. cbn [fiber].
    now apply memo_current_valid, reachable_memo_current. }
  split; [exact Hd|]. split; [reflexivity|]. split.
  - rewrite (memo_current_canCommit _ Hm), Hd. reflexivity.
  - unfold current_view. now rewrite (proj2 (NameChange_shows _ _)).
Qed.

(** X11. On a store whose reducer makes the selector return the name just
    set, a commit needs an edit before it: over any run from a reachable
    world, the number of actions dispatched is at most the number of texts
    typed, plus one if the button was enabled at the start. *)
Theorem commits_need_edits (w : World S) (events : list Event) :
  (forall s value, selectUserName (reducer s (setUserName value)) = value) ->
  reachable w ->
  (length (dispatched (store (fold_left step events w)))
   + (if canCommit (fold_left step events w) then 1 else 0)
   <= length (dispatched (store w)) + length (typed_texts events)
      + (if canCommit w then 1 else 0))%nat.
Proof.
  intros Hlaw. revert w. induction events as [|e events IH]; intros w Hw.
  - cbn [fold_left typed_texts length]. lia.
  - cbn [fold_left].
    assert (Hw' : reachable (step w e)) by now constructor.
    specialize (IH (step w e) Hw').
    destruct e as [value| |].
    + destruct (step_Change w value) as [Hs _]. rewrite Hs in IH.
      cbn [typed_texts length].
      destruct (canCommit (step w (Change value))), (canCommit w); lia.
    + cbn [typed_texts]. rewrite step_ClickSubmit in IH, Hw' |- *.
      destruct (canCommit w) eqn:E.
      * destruct (call_handleNameChange_spec w) as [Hs Hd].
        assert (Hoff : canCommit (call_handleNameChange w) = false).
        { rewrite (reachable_canCommit _ Hw'). unfold committed.
          rewrite Hs, Hd. cbn [dispatch getState]. rewrite Hlaw.
          apply strict_neq_same. }
        rewrite Hoff, Hs in IH. cbn [dispatch dispatched length] in IH. lia.
      * rewrite (reachable_rerender w Hw) in IH |- *. rewrite E in IH. lia.
    + cbn [typed_texts].
      destruct (step_ClickTesting w) as [Hs Hd].
      assert (Hsame : canCommit (step w ClickTesting) = canCommit w).
      { rewrite (reachable_canCommit _ Hw'), (reachable_canCommit _ Hw).
        unfold committed. now rewrite Hs, Hd. }
      rewrite Hsame, Hs in IH. lia.
Qed.

(** After a render, the store and the draft are all there is to a world. *)
Lemma memo_current_ext (w1 w2 : World S) :
  memo_current w1 -> memo_current w2 ->
  store w1 = store w2 -> draft w1 = draft w2 -> w1 = w2.
Proof.
  destruct w1 as [st1 [d1 m1]], w2 as [st2 [d2 m2]].
  unfold memo_current, committed, draft. cbn [store fiber inputUserName canChangeName_memo].
  intros -> -> -> ->. reflexivity.
Qed.

(** X12. How events compose, from a reachable world: of two texts typed one
    after the other only the second leaves a trace; a click on the "testing"
    button changes nothing; and a click on the submit button while the draft
    is the committed name changes nothing. *)
Theorem events_compose (w : World S) (first second : string) :
  reachable w ->
  step (step w (Change first)) (Change second) = step w (Change second)
  /\ step w ClickTesting = w
  /\ (committed w = draft w -> step w ClickSubmit = w).
Proof.
  intros Hw. split; [|split].
  - apply memo_current_ext.
    + apply reachable_memo_current. now repeat constructor.
    + apply reachable_memo_current. now constructor.
    + destruct (step_Change (step w (Change first)) second) as [Hs _].
      destruct (step_Change w first) as [Hs1 _].
      destruct (step_Change w second) as [Hs2 _]. congruence.
    + destruct (step_Change (step w (Change first)) second) as [_ Hd].
      destruct (step_Change w second) as [_ Hd2]. congruence.
  - destruct (step_ClickTesting w) as [Hs Hd].
    apply memo_current_ext; auto using reachable_memo_current, reachable_step.
  - intros E. rewrite step_ClickSubmit, (reachable_canCommit w Hw), E.
    rewrite strict_neq_same. now apply reachable_rerender.
Qed.

End NameChangeRuns.

(** * Further examples, run *)

(** Coordinates below zero: the hyphen of the key next to a minus sign. *)
Example negative_coordinates :
  cell_key 1 (-2) = "1--2" /\ read_key "1--2" = Some (1, -2)
  /\ cell_key (-1) 2 = "-1-2" /\ read_key "-1-2" = Some (-1, 2)
  /\ textContent (Cell (-3) 10) = "(-3, 10)"
  /\ read_label "(-3, 10)" = Some (-3, 10).
Proof. repeat split. Qed.

Lemma safe_minus_one_two :
  safe_coordinate (1, -2) /\ safe_coordinate (-1, 2).
Proof. unfold safe_coordinate, safe_integer, MAX_SAFE_INTEGER. simpl. lia. Qed.

(** The largest coordinate a grid can place, and the line it is placed on. *)
Lemma placement_safe_coordinate_witness :
  placeable (9007199254740990, 5)
  /\ placement (grid_item (9007199254740990, 5))
     = Some (9007199254740991, 6, 9007199254740991, 6).
Proof.
  assert (Hp : placeable (9007199254740990, 5))
    by (unfold placeable, MAX_SAFE_INTEGER; simpl; lia).
  split; [exact Hp|].
  exact (proj1 placement_safe_coordinate 9007199254740990 5 Hp).
Defined.

(** The keys "1--2" and "-1-2" read back to the coordinates they came from. *)
Lemma cell_key_round_trip_witness :
  safe_coordinate (1, -2)
  /\ read_key (cell_key 1 (-2)) = Some (1, -2).
Proof.
  split; [exact (proj1 safe_minus_one_two)|].
  exact (proj1 cell_key_round_trip 1 (-2) (proj1 safe_minus_one_two)).
Defined.

(** The label of (-1, 2) reads back to (-1, 2). *)
Lemma Cell_label_round_trip_witness :
  safe_coordinate (-1, 2)
  /\ read_label (textContent (Cell (-1) 2)) = Some (-1, 2).
Proof.
  split; [exact (proj2 safe_minus_one_two)|].
  exact (proj1 Cell_label_round_trip (-1) 2 (proj2 safe_minus_one_two)).
Defined.

(** A row that holds (1, -2) twice: its keys collide, as its coordinates do. *)
Lemma keys_distinct_iff_coordinates_distinct_witness :
  Forall safe_coordinate [(1, -2); (-1, 2); (1, -2)]
  /\ (NoDup (List.map key_of (List.map grid_item [(1, -2); (-1, 2); (1, -2)]))
      <-> NoDup [(1, -2); (-1, 2); (1, -2)])
  /\ ~ NoDup [(1, -2); (-1, 2); (1, -2)].
Proof.
  assert (Hs : Forall safe_coordinate [(1, -2); (-1, 2); (1, -2)]).
  { repeat constructor; apply safe_minus_one_two. }
  split; [exact Hs|].
  split; [exact (proj1 keys_distinct_iff_coordinates_distinct _ Hs)|].
  intros Hnd. inversion Hnd as [|? ? Hnotin _]. apply Hnotin. right. now left.
Defined.

(** The readers refuse what the components never write. *)
Example readers_refuse :
  read_key "12" = None /\ read_key "1-" = None /\ read_key "a-1" = None
  /\ read_label "(2,5)" = None /\ read_label "2, 5" = None
  /\ read_label "(2, 5) " = None.
Proof. repeat split. Qed.

(** Typing "Alice" back over "Bob" disables the button again. *)
Lemma typing_decides_enablement_witness :
  reachable bob_typed
  /\ canCommit (step bob_typed (Change "Alice"))
     = strict_neq (committed bob_typed) "Alice"
  /\ canCommit (step bob_typed (Change (committed bob_typed))) = false.
Proof.
  split; [exact bob_typed_reachable|].
  exact (typing_decides_enablement bob_typed "Alice" bob_typed_reachable).
Defined.

(** With "Bob" typed, the store's name becomes "Carol" from elsewhere: the
    draft stays "Bob". *)
Lemma store_change_keeps_draft_witness :
  reachable bob_typed
  /\ draft (store_changed bob_typed
              {| getState := {| UserSlice.userName := "Carol" |};
                 dispatched := [] |}) = draft bob_typed.
Proof.
  split; [exact bob_typed_reachable|].
  exact (proj1 (store_change_keeps_draft bob_typed
                  {| getState := {| UserSlice.userName := "Carol" |};
                     dispatched := [] |} bob_typed_reachable)).
Defined.

(** Two clicks in a row, one more text, one more click, on the user slice. *)
Lemma commits_need_edits_witness :
  (forall (s : UserSlice.RootState) value,
     selectUserName (reducer s (setUserName value)) = value)
  /\ reachable bob_typed
  /\ (length (dispatched (store (fold_left step
               [ClickSubmit; ClickSubmit; Change "Al"; ClickSubmit] bob_typed)))
      + (if canCommit (fold_left step
               [ClickSubmit; ClickSubmit; Change "Al"; ClickSubmit] bob_typed)
         then 1 else 0)
      <= length (dispatched (store bob_typed))
         + length (typed_texts [ClickSubmit; ClickSubmit; Change "Al"; ClickSubmit])
         + (if canCommit bob_typed then 1 else 0))%nat.
Proof.
  split; [reflexivity|]. split; [exact bob_typed_reachable|].
  exact (commits_need_edits bob_typed
           [ClickSubmit; ClickSubmit; Change "Al"; ClickSubmit]
           (fun s value => eq_refl) bob_typed_reachable).
Defined.

(** The run of the last example dispatches "Bob", then "Al", and no more. *)
Example two_commits_three_clicks :
  dispatched (store (fold_left step
     [ClickSubmit; ClickSubmit; Change "Al"; ClickSubmit] bob_typed))
  = [setUserName "Al"; setUserName "Bob"].
Proof. reflexivity. Qed.

(** Typing "Bo" and then "Bob" is typing "Bob"; the "testing" button leaves
    the world as it is. *)
Lemma events_compose_witness :
  reachable alice_mounted
  /\ step (step alice_mounted (Change "Bo")) (Change "Bob") = bob_typed
  /\ step alice_mounted ClickTesting = alice_mounted.
Proof.
  assert (Hw : reachable alice_mounted) by (unfold alice_mounted; constructor).
  split; [exact Hw|].
  split.
  - exact (proj1 (events_compose alice_mounted "Bo" "Bob" Hw)).
  - exact (proj1 (proj2 (events_compose alice_mounted "Bo" "Bob" Hw))).
Defined.
